(** * A model of CinosBeverageSystem.py: the [Drink] and [Order] classes.

    Python objects are modelled as records; each method is a computation in
    a small state-and-exception monad [ST S]: it reads and updates the
    object's fields and may raise.  As in Python, a raised exception leaves
    every update performed before the [raise] in place. *)

From Stdlib Require Import ZArith Lia.
From stdpp Require Import base gmap sets list strings.

Notation "s1 +:+ s2" := (String.append s1 s2) (at level 60, right associativity).

(** ** Exceptions raised by the program *)

Inductive exc :=
  | AlreadySet    (* ValueError("A base has already been added.") *)
  | InvalidValue  (* ValueError("Invalid base: ...") / ValueError("Invalid flavor: ...") *)
  | Duplicate     (* ValueError("Flavor '...' has already been added.") *)
  | TypeMismatch  (* TypeError("Invalid item. Only Drink objects are allowed.") *)
  | OutOfRange.   (* IndexError("Invalid index. No drink removed.") *)

Inductive result (A : Type) :=
  | Ok (a : A)
  | Err (e : exc).
Arguments Ok {A} a.
Arguments Err {A} e.

(** ** State-and-exception monad: the state is the receiver object *)

Definition ST (S A : Type) : Type := S -> result A * S.

Definition st_ret {S A} (a : A) : ST S A := fun s => (Ok a, s).
Definition st_bind {S A B} (m : ST S A) (k : A -> ST S B) : ST S B :=
  fun s => match m s with
           | (Ok a, s') => k a s'
           | (Err e, s') => (Err e, s')
           end.
Definition raise {S A} (e : exc) : ST S A := fun s => (Err e, s).
Definition get_self {S} : ST S S := fun s => (Ok s, s).
Definition put_self {S} (s : S) : ST S unit := fun _ => (Ok tt, s).

Global Instance st_mret S : MRet (ST S) := fun A a => st_ret a.
Global Instance st_mbind S : MBind (ST S) := fun A B k m => st_bind m k.

(** ** class Drink *)

Definition _valid_bases : list string :=
  ["water"; "sbrite"; "pokeacola"; "Mr. Salt"; "hill fog"; "leaf wine"].
Definition _valid_flavors : list string :=
  ["lemon"; "cherry"; "strawberry"; "mint"; "blueberry"; "lime"].

(** [self._base] is [None] or a string; [self._flavors] is a Python set. *)
Record Drink := mkDrink {
  _base : option string;
  _flavors : gset string
}.

(** [Drink.__init__] *)
Definition new_drink : Drink := mkDrink None ∅.

Definition get_base (d : Drink) : option string := _base d.
(** [list(self._flavors)]: the set's elements in its own iteration order. *)
Definition get_flavors (d : Drink) : list string := elements (_flavors d).
Definition get_num_flavors (d : Drink) : nat := size (_flavors d).

Definition add_base (b : string) : ST Drink unit :=
  self ← get_self;
  match _base self with
  | Some _ => raise AlreadySet
  | None =>
      if decide (b ∉ _valid_bases) then raise InvalidValue
      else put_self (mkDrink (Some b) (_flavors self))
  end.

Definition add_flavor (f : string) : ST Drink unit :=
  self ← get_self;
  if decide (f ∉ _valid_flavors) then raise InvalidValue
  else if decide (f ∈ _flavors self) then raise Duplicate
  else put_self (mkDrink (_base self) ({[ f ]} ∪ _flavors self)).

(** The [for flavor in flavors: self.add_flavor(flavor)] loop. *)
Fixpoint add_flavor_each (fs : list string) : ST Drink unit :=
  match fs with
  | [] => mret tt
  | f :: fs' => add_flavor f;; add_flavor_each fs'
  end.

Definition set_flavors (fs : list string) : ST Drink unit :=
  self ← get_self;
  put_self (mkDrink (_base self) ∅);;  (* self._flavors.clear() *)
  add_flavor_each fs.

(** ** Python floats, as far as [get_total] uses them

    [get_total] computes [len(self._items) * 5.00]: the int is converted to
    a binary64 float and multiplied by the float [5.0].  Both operands are
    non-negative integers and the product stays far below the overflow
    threshold, so every float involved is a non-negative integer; we
    represent such a float by its exact value.  Conversion and product are
    both rounded to the nearest binary64 value, ties to even. *)
Module PyFloat.

Local Open Scope Z_scope.

(** Round a non-negative integer to 53 significant bits, ties to even. *)
Definition round_binary64 (x : Z) : Z :=
  let digits := Z.log2 x + 1 in
  if digits <=? 53 then x
  else
    let s := digits - 53 in
    let q := Z.shiftr x s in
    let r := x - Z.shiftl q s in
    let half := Z.shiftl 1 (s - 1) in
    let q' := if r >? half then q + 1
              else if (r =? half) && Z.odd q then q + 1
              else q in
    Z.shiftl q' s.

(** [float(n)] for an int [n >= 0] *)
Definition of_int (n : Z) : Z := round_binary64 n.
(** [x * y] for two integer-valued floats [x, y >= 0] *)
Definition mul (x y : Z) : Z := round_binary64 (x * y).

End PyFloat.

(** ** str(), join and format helpers *)

Fixpoint uint_to_string (u : Decimal.uint) : string :=
  match u with
  | Decimal.Nil => ""
  | Decimal.D0 u => "0" +:+ uint_to_string u
  | Decimal.D1 u => "1" +:+ uint_to_string u
  | Decimal.D2 u => "2" +:+ uint_to_string u
  | Decimal.D3 u => "3" +:+ uint_to_string u
  | Decimal.D4 u => "4" +:+ uint_to_string u
  | Decimal.D5 u => "5" +:+ uint_to_string u
  | Decimal.D6 u => "6" +:+ uint_to_string u
  | Decimal.D7 u => "7" +:+ uint_to_string u
  | Decimal.D8 u => "8" +:+ uint_to_string u
  | Decimal.D9 u => "9" +:+ uint_to_string u
  end.

(** [str(z)] for a Python int *)
Definition py_str_int (z : Z) : string :=
  match Z.to_int z with
  | Decimal.Pos u => uint_to_string u
  | Decimal.Neg u => "-" +:+ uint_to_string u
  end.

(** [f"{x:.2f}"] for an integer-valued float [x >= 0]: its exact decimal
    expansion, then two zero decimals. *)
Definition format_2f (x : Z) : string := py_str_int x +:+ ".00".

(** [str(v)] for the value of [get_base()]: [str(None)] is ["None"]. *)
Definition py_str_base (b : option string) : string :=
  match b with
  | None => "None"
  | Some s => s
  end.

(** [sep.join(l)] *)
Fixpoint py_join (sep : string) (l : list string) : string :=
  match l with
  | [] => ""
  | [x] => x
  | x :: l' => x +:+ sep +:+ py_join sep l'
  end.

(** [s or alt] for a string [s]: the empty string is falsy. *)
Definition py_or (s alt : string) : string :=
  if String.eqb s "" then alt else s.

Definition newline : string := String (Ascii.ascii_of_nat 10) "".

(** ** class Order *)

Record Order := mkOrder { _items : list Drink }.

(** [Order.__init__] *)
Definition new_order : Order := mkOrder [].

Definition get_items (o : Order) : list Drink := _items o.
Definition get_num_items (o : Order) : nat := length (_items o).

Definition price_per_drink : Z := 5.  (* the float 5.00 *)

Definition get_total (o : Order) : Z :=
  PyFloat.mul (PyFloat.of_int (Z.of_nat (length (_items o)))) price_per_drink.

(** [f"{idx}. Base: {drink.get_base()}, Flavors: {', '.join(drink.get_flavors()) or 'None'}"] *)
Definition receipt_line (idx : nat) (drink : Drink) : string :=
  py_str_int (Z.of_nat idx) +:+ ". Base: " +:+ py_str_base (get_base drink)
  +:+ ", Flavors: " +:+ py_or (py_join ", " (get_flavors drink)) "None".

(** [for idx, drink in enumerate(items, start): ...] *)
Fixpoint receipt_lines_from (idx : nat) (items : list Drink) : list string :=
  match items with
  | [] => []
  | drink :: items' => receipt_line idx drink :: receipt_lines_from (S idx) items'
  end.

Definition get_receipt (o : Order) : string :=
  match _items o with
  | [] => "Order is empty. Add some drinks!"
  | _ =>
      py_join newline
        (["--- Order Receipt ---"]
         ++ receipt_lines_from 1 (_items o)
         ++ ["Total Drinks: " +:+ py_str_int (Z.of_nat (get_num_items o));
             "Total Cost: $" +:+ format_2f (get_total o)])
  end.

(** The arguments [add_item] can receive: any Python value. *)
Inductive py_value :=
  | PyDrink (d : Drink)
  | PyStr (s : string)
  | PyInt (z : Z)
  | PyNone.

Definition add_item (x : py_value) : ST Order unit :=
  self ← get_self;
  match x with
  | PyDrink drink => put_self (mkOrder (_items self ++ [drink]))  (* append *)
  | _ => raise TypeMismatch
  end.

(** [list.pop(i)] for [0 <= i < len(l)] *)
Fixpoint list_pop {A} (i : nat) (l : list A) : list A :=
  match l, i with
  | [], _ => []
  | _ :: l', O => l'
  | x :: l', S i' => x :: list_pop i' l'
  end.

Definition remove_item (index : Z) : ST Order unit :=
  self ← get_self;
  if ((index <? 0) || (index >=? Z.of_nat (length (_items self))))%Z
  then raise OutOfRange
  else put_self (mkOrder (list_pop (Z.to_nat index) (_items self))).

(** ** Callers of a Drink

    A caller invokes the mutators in any order and, when one raises, catches
    the exception and goes on with the same object.  The getters have no
    effect and are left out. *)

Inductive drink_call :=
  | CallAddBase (b : string)
  | CallAddFlavor (f : string)
  | CallSetFlavors (fs : list string).

Definition drink_method (c : drink_call) : ST Drink unit :=
  match c with
  | CallAddBase b => add_base b
  | CallAddFlavor f => add_flavor f
  | CallSetFlavors fs => set_flavors fs
  end.

Fixpoint run_calls (cs : list drink_call) (d : Drink) : list (result unit) * Drink :=
  match cs with
  | [] => ([], d)
  | c :: cs' =>
      let '(r, d') := drink_method c d in
      let '(rs, d'') := run_calls cs' d' in
      (r :: rs, d'')
  end.

(** Number of calls of [add_base] that returned normally. *)
Fixpoint add_base_successes (cs : list drink_call) (rs : list (result unit)) : nat :=
  match cs, rs with
  | CallAddBase _ :: cs', Ok _ :: rs' => S (add_base_successes cs' rs')
  | _ :: cs', _ :: rs' => add_base_successes cs' rs'
  | _, _ => 0
  end.

(** The invariant of [Drink] stated in the spec. *)
Definition drink_inv (d : Drink) : Prop :=
  match _base d with
  | None => True
  | Some b => b ∈ _valid_bases
  end
  /\ set_Forall (fun f => f ∈ _valid_flavors) (_flavors d)
  /\ NoDup (get_flavors d).

Global Instance drink_inv_dec (d : Drink) : Decision (drink_inv d).
Proof. unfold drink_inv. destruct (_base d); apply _. Defined.

(** The receipt as the spec describes it: a header, the drinks numbered
    from 1 in order, then the two total lines. *)
Definition spec_drink_line (n : nat) (d : Drink) : string :=
  py_str_int (Z.of_nat n) +:+ ". Base: "
  +:+ (match get_base d with Some b => b | None => "None" end)
  +:+ ", Flavors: "
  +:+ (match get_flavors d with [] => "None" | fl => py_join ", " fl end).

Definition spec_receipt_lines (o : Order) : list string :=
  ["--- Order Receipt ---"]
  ++ imap (fun i d => spec_drink_line (S i) d) (_items o)
  ++ ["Total Drinks: " +:+ py_str_int (Z.of_nat (length (_items o)));
      "Total Cost: $" +:+ py_str_int (get_total o) +:+ ".00"].

(** An order of [2^51 + 1] new drinks. *)
Definition big_order : Order := mkOrder (repeat new_drink (Z.to_nat (2^51 + 1))).

(** Sample objects. *)
Definition lemon_drink : Drink := mkDrink None {[ "lemon" ]}.
Definition mint_drink : Drink := mkDrink (Some "water") {[ "mint" ]}.
Definition three_drink_order : Order := mkOrder [new_drink; mint_drink; lemon_drink].
Definition sample_order : Order := mkOrder [mint_drink; new_drink].

(** * Proofs *)

(** Settle a decidable proposition on concrete data by evaluation. *)
Ltac by_eval := cbv beta; refine (bool_decide_unpack _ _); vm_compute; exact I.

Ltac st_simpl :=
  unfold mbind, st_mbind, mret, st_mret, st_bind, st_ret, get_self, put_self, raise;
  simpl.

Lemma elem_of_valid_flavors_nonempty (f : string) :
  f ∈ _valid_flavors -> f <> "".
Proof.
  unfold _valid_flavors. intros H ->. repeat (inversion H as [|? ? ? H']; subst; clear H; rename H' into H).
Qed.

(** ** C9: each mutator leaves the other field alone *)

Lemma add_flavor_base (f : string) (d : Drink) :
  _base (snd (add_flavor f d)) = _base d.
Proof.
  unfold add_flavor. st_simpl.
  destruct (decide (f ∉ _valid_flavors)); [done|].
  destruct (decide (f ∈ _flavors d)); done.
Qed.

Lemma add_flavor_each_base (fs : list string) (d : Drink) :
  _base (snd (add_flavor_each fs d)) = _base d.
Proof.
  revert d; induction fs as [|f fs IH]; intros d; [done|].
  simpl. unfold mbind, st_mbind, st_bind.
  pose proof (add_flavor_base f d) as Hb.
  destruct (add_flavor f d) as [[] d'] eqn:E; simpl in *.
  - rewrite IH. done.
  - done.
Qed.

(** C9: each Drink mutator touches only its own field: [add_base] never
    changes the flavor set, and [add_flavor] and [set_flavors] never change
    the base, whether the call returns or raises. *)
Theorem drink_mutators_frame (d : Drink) :
  (forall b, _flavors (snd (add_base b d)) = _flavors d)
  /\ (forall f, _base (snd (add_flavor f d)) = _base d)
  /\ (forall fs, _base (snd (set_flavors fs d)) = _base d).
Proof.
  split; [|split].
  - intros b. unfold add_base. st_simpl.
    destruct (_base d); [done|].
    destruct (decide (b ∉ _valid_bases)); done.
  - intros f. apply add_flavor_base.
  - intros fs. unfold set_flavors. st_simpl.
    rewrite add_flavor_each_base. done.
Qed.

(** ** C2: add_base *)

Lemma add_base_unset (b : string) (d : Drink) :
  _base d = None ->
  add_base b d = (if decide (b ∉ _valid_bases) then (Err InvalidValue, d)
                  else (Ok tt, mkDrink (Some b) (_flavors d))).
Proof.
  intros Hb. unfold add_base. st_simpl. rewrite Hb.
  destruct (decide (b ∉ _valid_bases)); done.
Qed.

Lemma add_base_set (b : string) (d : Drink) :
  is_Some (_base d) -> add_base b d = (Err AlreadySet, d).
Proof.
  intros [b0 Hb]. unfold add_base. st_simpl. rewrite Hb. done.
Qed.

Lemma drink_method_base_set (c : drink_call) (d : Drink) :
  is_Some (_base d) -> _base (snd (drink_method c d)) = _base d.
Proof.
  intros Hs. destruct (drink_mutators_frame d) as (_ & Hf & Hs').
  destruct c as [b|f|fs]; simpl.
  - rewrite add_base_set; done.
  - apply Hf.
  - apply Hs'.
Qed.

Lemma add_base_successes_set (cs : list drink_call) (d : Drink) :
  is_Some (_base d) -> add_base_successes cs (fst (run_calls cs d)) = 0.
Proof.
  revert d; induction cs as [|c cs IH]; intros d Hs; [done|].
  simpl. pose proof (drink_method_base_set c d Hs) as Hb.
  destruct (drink_method c d) as [r d'] eqn:Ec.
  destruct (run_calls cs d') as [rs d''] eqn:Er. simpl in Hb |- *.
  assert (add_base_successes cs rs = 0) as Hrs.
  { change rs with (fst (rs, d'')). rewrite <- Er. apply IH. rewrite Hb. done. }
  destruct c as [b|f|fs]; [|destruct r; exact Hrs..].
  simpl in Ec. rewrite add_base_set in Ec by done. injection Ec as <- <-. exact Hrs.
Qed.

Lemma add_base_successes_unset (cs : list drink_call) (d : Drink) :
  _base d = None -> add_base_successes cs (fst (run_calls cs d)) <= 1.
Proof.
  revert d; induction cs as [|c cs IH]; intros d Hn; simpl; [lia|].
  destruct (drink_method c d) as [r d'] eqn:Ec.
  destruct (run_calls cs d') as [rs d''] eqn:Er. simpl.
  assert (Hrs : _base d' = None -> add_base_successes cs rs <= 1).
  { intros Hn'. change rs with (fst (rs, d'')). rewrite <- Er. apply IH. done. }
  destruct (drink_mutators_frame d) as (_ & Hf & Hs).
  destruct c as [b|f|fs]; simpl in Ec.
  - rewrite add_base_unset in Ec by done.
    destruct (decide (b ∉ _valid_bases)); injection Ec as <- <-.
    + apply Hrs. done.
    + assert (add_base_successes cs rs = 0) as ->; [|lia].
      change rs with (fst (rs, d'')). rewrite <- Er.
      apply add_base_successes_set. simpl. eexists; done.
  - pose proof (Hf f) as Hb. rewrite Ec in Hb. simpl in Hb.
    destruct r; apply Hrs; congruence.
  - pose proof (Hs fs) as Hb. rewrite Ec in Hb. simpl in Hb.
    destruct r; apply Hrs; congruence.
Qed.

(** C2: [add_base(v)] raises AlreadySet whenever a base is already set,
    whatever [v] is; with no base set it raises InvalidValue for a [v]
    outside the six valid bases, leaving the drink (and its unset base)
    unchanged, and otherwise sets the base to [v].  After a successful call
    every later call raises AlreadySet and leaves the base unchanged, and
    along any sequence of calls on a new drink [add_base] succeeds at most
    once. *)
Theorem add_base_spec (d : Drink) (v : string) :
  (is_Some (_base d) -> add_base v d = (Err AlreadySet, d))
  /\ (_base d = None -> v ∉ _valid_bases -> add_base v d = (Err InvalidValue, d))
  /\ (_base d = None -> v ∈ _valid_bases ->
      add_base v d = (Ok tt, mkDrink (Some v) (_flavors d)))
  /\ (fst (add_base v d) = Ok tt ->
      forall w, add_base w (snd (add_base v d)) = (Err AlreadySet, snd (add_base v d)))
  /\ (forall cs, add_base_successes cs (fst (run_calls cs new_drink)) <= 1).
Proof.
  split; [apply add_base_set|]. split; [|split; [|split]].
  - intros Hn Hv. rewrite add_base_unset by done. rewrite decide_True by done. done.
  - intros Hn Hv. rewrite add_base_unset by done.
    rewrite decide_False by (intros Hc; apply Hc, Hv). done.
  - intros Hok w. apply add_base_set.
    destruct (_base d) as [b|] eqn:Hb.
    + rewrite add_base_set in Hok by (eexists; done). discriminate.
    + rewrite add_base_unset in Hok |- * by done.
      destruct (decide (v ∉ _valid_bases)); [discriminate|]. simpl. eexists; done.
  - intros cs. apply add_base_successes_unset. done.
Qed.

Lemma add_base_spec_witness :
  _base new_drink = None /\ "water" ∈ _valid_bases
  /\ add_base "water" new_drink = (Ok tt, mkDrink (Some "water") (_flavors new_drink)).
Proof.
  assert (Hn : _base new_drink = None) by reflexivity.
  assert (Hv : "water" ∈ _valid_bases) by by_eval.
  split; [exact Hn|]. split; [exact Hv|].
  exact (proj1 (proj2 (proj2 (add_base_spec new_drink "water"))) Hn Hv).
Defined.

(** ** C3: add_flavor *)

(** C3: [add_flavor(v)] raises InvalidValue, changing nothing, when [v] is
    not one of the six valid flavors; on a drink satisfying the invariant it
    raises Duplicate, changing nothing (so the flavor count is the same),
    when [v] is already present; otherwise it inserts [v] and the flavor
    count grows by exactly one. *)
Theorem add_flavor_spec (d : Drink) (v : string) :
  (v ∉ _valid_flavors -> add_flavor v d = (Err InvalidValue, d))
  /\ (drink_inv d -> v ∈ _flavors d ->
      add_flavor v d = (Err Duplicate, d)
      /\ get_num_flavors (snd (add_flavor v d)) = get_num_flavors d)
  /\ (v ∈ _valid_flavors -> v ∉ _flavors d ->
      add_flavor v d = (Ok tt, mkDrink (_base d) ({[ v ]} ∪ _flavors d))
      /\ get_num_flavors (snd (add_flavor v d)) = S (get_num_flavors d)).
Proof.
  unfold add_flavor. st_simpl. split; [|split].
  - intros Hv. rewrite decide_True by done. done.
  - intros (_ & Hinv & _) Hin.
    rewrite decide_False by (intros Hc; apply Hc, Hinv, Hin).
    rewrite decide_True by done. done.
  - intros Hv Hnin.
    rewrite decide_False by (intros Hc; apply Hc, Hv).
    rewrite decide_False by done. split; [done|].
    unfold get_num_flavors. simpl.
    rewrite size_union by set_solver. rewrite size_singleton. done.
Qed.

Lemma add_flavor_spec_witness :
  drink_inv lemon_drink /\ "lemon" ∈ _flavors lemon_drink
  /\ add_flavor "lemon" lemon_drink = (Err Duplicate, lemon_drink)
  /\ get_num_flavors (snd (add_flavor "lemon" lemon_drink)) = get_num_flavors lemon_drink.
Proof.
  assert (Hi : drink_inv lemon_drink) by by_eval.
  assert (Hl : "lemon" ∈ _flavors lemon_drink) by by_eval.
  split; [exact Hi|]. split; [exact Hl|].
  exact (proj1 (proj2 (add_flavor_spec lemon_drink "lemon")) Hi Hl).
Defined.

(** ** C1: set_flavors *)

Lemma add_flavor_eq (f : string) (d : Drink) :
  add_flavor f d =
    if decide (f ∉ _valid_flavors) then (Err InvalidValue, d)
    else if decide (f ∈ _flavors d) then (Err Duplicate, d)
    else (Ok tt, mkDrink (_base d) ({[ f ]} ∪ _flavors d)).
Proof.
  unfold add_flavor. st_simpl.
  destruct (decide (f ∉ _valid_flavors)); [done|].
  destruct (decide (f ∈ _flavors d)); done.
Qed.

Lemma set_flavors_eq (fs : list string) (d : Drink) :
  set_flavors fs d = add_flavor_each fs (mkDrink (_base d) ∅).
Proof. unfold set_flavors. st_simpl. done. Qed.

(** A prefix of distinct valid flavors, none present yet, is added one by
    one without raising. *)
Lemma add_flavor_each_app (pre rest : list string) (d : Drink) :
  NoDup pre -> Forall (fun f => f ∈ _valid_flavors) pre ->
  (forall f, f ∈ pre -> f ∉ _flavors d) ->
  add_flavor_each (pre ++ rest) d =
    add_flavor_each rest (mkDrink (_base d) (list_to_set pre ∪ _flavors d)).
Proof.
  revert d; induction pre as [|x pre IH]; intros d Hnd Hval Hfresh.
  - destruct d as [b fl]. simpl. rewrite union_empty_l_L. done.
  - apply NoDup_cons in Hnd as [Hx Hnd]. apply Forall_cons in Hval as [Hvx Hval].
    simpl. unfold mbind, st_mbind, st_bind. rewrite add_flavor_eq.
    rewrite decide_False by (intros Hc; apply Hc, Hvx).
    rewrite decide_False by (apply Hfresh; set_solver).
    rewrite IH; [|done|done|].
    + simpl. f_equal. f_equal. set_solver.
    + intros f Hf. simpl. specialize (Hfresh f ltac:(set_solver)).
      assert (f <> x) by (intros ->; done). set_solver.
Qed.

(** The first invalid or already present flavor raises; nothing changes. *)
Lemma add_flavor_each_fail (v : string) (post : list string) (d : Drink) :
  v ∉ _valid_flavors \/ v ∈ _flavors d ->
  add_flavor_each (v :: post) d =
    (Err (if decide (v ∈ _valid_flavors) then Duplicate else InvalidValue), d).
Proof.
  intros Hbad. simpl. unfold mbind, st_mbind, st_bind. rewrite add_flavor_eq.
  destruct (decide (v ∈ _valid_flavors)) as [Hv|Hv].
  - rewrite decide_False by (intros Hc; apply Hc, Hv).
    rewrite decide_True by (destruct Hbad; [contradiction|done]). done.
  - rewrite decide_True by done. done.
Qed.

(** C1: [set_flavors(fs)] first clears the flavors and then adds the
    elements of [fs] in order with [add_flavor]'s checks.  When [fs] has no
    repetition and only valid flavors the call returns and the flavors are
    exactly those of [fs]; when [fs = pre ++ v :: post] with [pre] fine and
    [v] invalid or already in [pre], the call raises at [v] (InvalidValue or
    Duplicate) and the flavors are exactly those of [pre], with no rollback.
    In particular [set_flavors(["lemon","lemon"])] raises Duplicate leaving
    exactly {"lemon"}, and [set_flavors(["lemon","cherry"])] on a drink
    holding "mint" leaves exactly {"lemon","cherry"}.  The base is kept. *)
Theorem set_flavors_spec (d : Drink) (fs : list string) :
  (NoDup fs -> Forall (fun f => f ∈ _valid_flavors) fs ->
   set_flavors fs d = (Ok tt, mkDrink (_base d) (list_to_set fs)))
  /\ (forall pre v post,
        fs = pre ++ v :: post -> NoDup pre -> Forall (fun f => f ∈ _valid_flavors) pre ->
        v ∉ _valid_flavors \/ v ∈ pre ->
        set_flavors fs d =
          (Err (if decide (v ∈ _valid_flavors) then Duplicate else InvalidValue),
           mkDrink (_base d) (list_to_set pre)))
  /\ set_flavors ["lemon"; "lemon"] d = (Err Duplicate, mkDrink (_base d) {[ "lemon" ]})
  /\ ("mint" ∈ _flavors d ->
      set_flavors ["lemon"; "cherry"] d
        = (Ok tt, mkDrink (_base d) {[ "lemon"; "cherry" ]})).
Proof.
  assert (Hok : forall l, NoDup l -> Forall (fun f => f ∈ _valid_flavors) l ->
            set_flavors l d = (Ok tt, mkDrink (_base d) (list_to_set l))).
  { intros l Hnd Hval. rewrite set_flavors_eq, <- (app_nil_r l).
    rewrite add_flavor_each_app by (done || set_solver).
    simpl. rewrite !app_nil_r, union_empty_r_L. done. }
  assert (Hfail : forall pre v post,
            NoDup pre -> Forall (fun f => f ∈ _valid_flavors) pre ->
            v ∉ _valid_flavors \/ v ∈ pre ->
            set_flavors (pre ++ v :: post) d =
              (Err (if decide (v ∈ _valid_flavors) then Duplicate else InvalidValue),
               mkDrink (_base d) (list_to_set pre))).
  { intros pre v post Hnd Hval Hbad. rewrite set_flavors_eq.
    rewrite add_flavor_each_app by (done || set_solver).
    rewrite add_flavor_each_fail.
    - simpl. rewrite union_empty_r_L. done.
    - simpl. rewrite union_empty_r_L, elem_of_list_to_set. done. }
  split; [exact (Hok fs)|]. split; [|split].
  - intros pre v post ->. apply Hfail.
  - change ["lemon"; "lemon"] with (["lemon"] ++ "lemon" :: []).
    rewrite (Hfail ["lemon"] "lemon" []);
      [| apply NoDup_singleton | constructor; [by_eval | constructor] | right; set_solver].
    rewrite decide_True by by_eval. simpl. rewrite union_empty_r_L. done.
  - intros _. rewrite Hok; [| by_eval | repeat (constructor; [by_eval|]); constructor].
    simpl. do 2 f_equal; set_solver.
Qed.

Lemma set_flavors_spec_witness :
  "mint" ∈ _flavors mint_drink
  /\ set_flavors ["lemon"; "cherry"] mint_drink
      = (Ok tt, mkDrink (_base mint_drink) {[ "lemon"; "cherry" ]}).
Proof.
  assert (Hm : "mint" ∈ _flavors mint_drink) by by_eval.
  split; [exact Hm|].
  exact (proj2 (proj2 (proj2 (set_flavors_spec mint_drink ["lemon"; "cherry"]))) Hm).
Defined.

(** ** C6: the Drink invariant *)

Lemma add_base_inv (b : string) (d : Drink) :
  drink_inv d -> drink_inv (snd (add_base b d)).
Proof.
  intros Hinv. destruct (_base d) as [b0|] eqn:Hb.
  - rewrite add_base_set by (eexists; done). done.
  - rewrite add_base_unset by done.
    destruct (decide (b ∉ _valid_bases)) as [|Hv]; [done|].
    destruct Hinv as (_ & Hfl & _). split; [|split].
    + simpl. destruct (decide (b ∈ _valid_bases)); [done|contradiction].
    + exact Hfl.
    + unfold get_flavors; apply NoDup_elements.
Qed.

Lemma add_flavor_inv (f : string) (d : Drink) :
  drink_inv d -> drink_inv (snd (add_flavor f d)).
Proof.
  intros Hinv. rewrite add_flavor_eq.
  destruct (decide (f ∉ _valid_flavors)) as [|Hv]; [done|].
  destruct (decide (f ∈ _flavors d)); [done|].
  destruct Hinv as (Hb & Hfl & _). split; [|split].
  - exact Hb.
  - simpl. intros g Hg. apply elem_of_union in Hg as [Hg|Hg].
    + apply elem_of_singleton in Hg as ->.
      destruct (decide (f ∈ _valid_flavors)); [done|contradiction].
    + apply Hfl, Hg.
  - unfold get_flavors; apply NoDup_elements.
Qed.

Lemma add_flavor_each_inv (fs : list string) (d : Drink) :
  drink_inv d -> drink_inv (snd (add_flavor_each fs d)).
Proof.
  revert d; induction fs as [|f fs IH]; intros d Hinv; [done|].
  simpl. unfold mbind, st_mbind, st_bind.
  pose proof (add_flavor_inv f d Hinv) as Hd'.
  destruct (add_flavor f d) as [[] d'] eqn:E; simpl in *.
  - apply IH, Hd'.
  - exact Hd'.
Qed.

Lemma set_flavors_inv (fs : list string) (d : Drink) :
  drink_inv d -> drink_inv (snd (set_flavors fs d)).
Proof.
  intros (Hb & _ & _). rewrite set_flavors_eq. apply add_flavor_each_inv.
  split; [|split].
  - exact Hb.
  - simpl. set_solver.
  - unfold get_flavors; apply NoDup_elements.
Qed.

Lemma drink_method_inv (c : drink_call) (d : Drink) :
  drink_inv d -> drink_inv (snd (drink_method c d)).
Proof.
  destruct c; simpl; [apply add_base_inv | apply add_flavor_inv | apply set_flavors_inv].
Qed.

Lemma run_calls_inv (cs : list drink_call) (d : Drink) :
  drink_inv d -> drink_inv (snd (run_calls cs d)).
Proof.
  revert d; induction cs as [|c cs IH]; intros d Hinv; [done|].
  simpl. pose proof (drink_method_inv c d Hinv) as Hd'.
  destruct (drink_method c d) as [r d'] eqn:Ec.
  pose proof (IH d' Hd') as Hd''.
  destruct (run_calls cs d') as [rs d''] eqn:Er. exact Hd''.
Qed.

(** C6: the Drink invariant (base unset or one of the six valid bases,
    every flavor one of the six valid flavors, no flavor listed twice) holds
    for a new drink and is preserved by every call of [add_base],
    [add_flavor] and [set_flavors], whether it returns or raises; hence it
    holds after any sequence of calls on a new drink. *)
Theorem drink_inv_reachable :
  drink_inv new_drink
  /\ (forall c d, drink_inv d -> drink_inv (snd (drink_method c d)))
  /\ (forall cs, drink_inv (snd (run_calls cs new_drink))).
Proof.
  assert (H0 : drink_inv new_drink).
  { split; [done|split]; [simpl; set_solver | unfold get_flavors; apply NoDup_elements]. }
  split; [exact H0|]. split.
  - apply drink_method_inv.
  - intros cs. apply run_calls_inv, H0.
Qed.

Lemma drink_inv_reachable_witness :
  drink_inv mint_drink /\ drink_inv (snd (drink_method (CallSetFlavors ["lime"; "pear"]) mint_drink)).
Proof.
  assert (Hi : drink_inv mint_drink) by by_eval.
  split; [exact Hi|].
  exact (proj1 (proj2 drink_inv_reachable) (CallSetFlavors ["lime"; "pear"]) mint_drink Hi).
Defined.

(** ** C4: get_total *)

Lemma round_binary64_small (x : Z) :
  (0 <= x < 2^53)%Z -> PyFloat.round_binary64 x = x.
Proof.
  intros [H0 H1]. unfold PyFloat.round_binary64. cbv zeta.
  destruct (Z.eq_dec x 0%Z) as [->|Hx]; [done|].
  assert (Z.log2 x < 53)%Z by (rewrite <- Z.log2_lt_pow2 by lia; done).
  rewrite (proj2 (Z.leb_le _ _)) by lia. done.
Qed.

(** C4, amended: [get_total()] is the binary64 product [float(n) * 5.0] of
    the current item count [n], recomputed on each call.  It equals [n * 5]
    exactly, and its two-decimal rendering is [n * 5] followed by [.00],
    whenever [n * 5 < 2^53]; in particular an empty order totals 0 and an
    order of three drinks totals 15. *)
Theorem get_total_exact (o : Order) :
  (5 * Z.of_nat (get_num_items o) < 2^53)%Z ->
  get_total o = (5 * Z.of_nat (get_num_items o))%Z
  /\ format_2f (get_total o) = py_str_int (5 * Z.of_nat (get_num_items o)) +:+ ".00"
  /\ get_total new_order = 0%Z
  /\ (forall a b c, get_total (mkOrder [a; b; c]) = 15%Z).
Proof.
  intros Hsmall.
  assert (Htot : get_total o = (5 * Z.of_nat (get_num_items o))%Z).
  { unfold get_total, PyFloat.mul, PyFloat.of_int, price_per_drink.
    fold (get_num_items o).
    rewrite (round_binary64_small (Z.of_nat (get_num_items o))) by lia.
    rewrite round_binary64_small by lia. lia. }
  split; [exact Htot|]. split; [|split].
  - unfold format_2f. rewrite Htot. done.
  - done.
  - intros a b c. done.
Qed.

Lemma get_total_exact_witness :
  (5 * Z.of_nat (get_num_items three_drink_order) < 2^53)%Z
  /\ get_total three_drink_order = (5 * Z.of_nat (get_num_items three_drink_order))%Z.
Proof.
  assert (Hs : (5 * Z.of_nat (get_num_items three_drink_order) < 2^53)%Z)
    by (vm_compute; reflexivity).
  split; [exact Hs|].
  exact (proj1 (get_total_exact three_drink_order Hs)).
Defined.

(** C4 fails as stated: [big_order] has [2^51 + 1] drinks, and the float
    product rounds ([5 * (2^51 + 1)] is odd and needs 54 bits, a tie broken
    to the even neighbour below), so the total is exactly one less than
    [5 * (2^51 + 1)] and differs from it. *)
Lemma get_total_not_exact :
  Z.of_nat (get_num_items big_order) = (2^51 + 1)%Z
  /\ get_total big_order = (5 * (2^51 + 1) - 1)%Z
  /\ get_total big_order <> (5 * Z.of_nat (get_num_items big_order))%Z.
Proof.
  unfold big_order, get_total, get_num_items. cbn [_items].
  generalize (Z2Nat.id (2^51 + 1) ltac:(lia)). generalize (Z.to_nat (2^51 + 1)).
  intros k Hk. rewrite repeat_length, Hk.
  split; [reflexivity|]. split; [vm_compute; reflexivity|].
  vm_compute. discriminate.
Qed.

(** ** C7: remove_item *)

Lemma list_pop_take_drop {A} (i : nat) (l : list A) :
  list_pop i l = take i l ++ drop (S i) l.
Proof.
  revert i; induction l as [|x l IH]; intros [|i]; simpl; try done.
  rewrite IH. done.
Qed.

Lemma remove_item_eq (index : Z) (o : Order) :
  remove_item index o =
    if ((index <? 0) || (index >=? Z.of_nat (length (_items o))))%Z
    then (Err OutOfRange, o)
    else (Ok tt, mkOrder (list_pop (Z.to_nat index) (_items o))).
Proof.
  unfold remove_item. st_simpl.
  destruct ((index <? 0) || (index >=? Z.of_nat (length (_items o))))%Z; done.
Qed.

(** C7: [remove_item(index)] raises OutOfRange, leaving the order as it
    is, when [index < 0] or [index >= count] (so [remove_item(-1)] and
    [remove_item(count)] raise on every order); otherwise it removes exactly
    the element at [index]: the items become those before [index] followed
    by those after it, the count drops by one, and the element that was at
    [j] is now at [j] if [j < index] and at [j - 1] if [j > index]. *)
Theorem remove_item_spec (o : Order) (index : Z) :
  ((index < 0 \/ Z.of_nat (get_num_items o) <= index)%Z ->
   remove_item index o = (Err OutOfRange, o))
  /\ remove_item (-1) o = (Err OutOfRange, o)
  /\ remove_item (Z.of_nat (get_num_items o)) o = (Err OutOfRange, o)
  /\ ((0 <= index < Z.of_nat (get_num_items o))%Z ->
      remove_item index o
        = (Ok tt, mkOrder (take (Z.to_nat index) (_items o)
                           ++ drop (S (Z.to_nat index)) (_items o)))
      /\ get_num_items (snd (remove_item index o)) = pred (get_num_items o)
      /\ (forall j, _items (snd (remove_item index o)) !! j
                    = _items o !! (if decide (j < Z.to_nat index) then j else S j))).
Proof.
  unfold get_num_items.
  assert (Hout : forall i, (i < 0 \/ Z.of_nat (length (_items o)) <= i)%Z ->
                 remove_item i o = (Err OutOfRange, o)).
  { intros i Hi. rewrite remove_item_eq.
    destruct Hi as [Hi|Hi].
    - rewrite (proj2 (Z.ltb_lt _ _)) by lia. done.
    - rewrite (proj2 (Z.geb_le _ _)) by lia. rewrite orb_true_r. done. }
  split; [apply Hout|]. split; [apply Hout; lia|]. split; [apply Hout; lia|].
  intros Hin.
  assert (Heq : remove_item index o
          = (Ok tt, mkOrder (take (Z.to_nat index) (_items o)
                             ++ drop (S (Z.to_nat index)) (_items o)))).
  { rewrite remove_item_eq.
    rewrite (proj2 (Z.ltb_ge _ _)) by lia.
    replace (index >=? Z.of_nat (length (_items o)))%Z with false
      by (symmetry; rewrite Z.geb_leb; apply Z.leb_gt; lia).
    rewrite list_pop_take_drop. done. }
  rewrite Heq. simpl. split; [done|]. split.
  - rewrite length_app, length_take, length_drop. lia.
  - intros j. destruct (decide (j < Z.to_nat index)) as [Hj|Hj].
    + rewrite lookup_app_l by (rewrite length_take; lia).
      apply lookup_take_lt. done.
    + rewrite lookup_app_r by (rewrite length_take; lia).
      rewrite lookup_drop, length_take. f_equal. lia.
Qed.

Lemma remove_item_spec_witness :
  (0 <= 1 < Z.of_nat (get_num_items three_drink_order))%Z
  /\ remove_item 1 three_drink_order
      = (Ok tt, mkOrder (take (Z.to_nat 1) (_items three_drink_order)
                         ++ drop (S (Z.to_nat 1)) (_items three_drink_order))).
Proof.
  assert (Hr : (0 <= 1 < Z.of_nat (get_num_items three_drink_order))%Z)
    by by_eval.
  split; [exact Hr|].
  exact (proj1 (proj2 (proj2 (proj2 (remove_item_spec three_drink_order 1))) Hr)).
Defined.

(** ** C8: add_item *)

(** C8: [add_item(x)] raises TypeMismatch and leaves the order unchanged
    when [x] is not a Drink (e.g. the string "not a drink"); when [x] is a
    Drink it appends it after the existing items, whose order is kept. *)
Theorem add_item_spec (o : Order) (x : py_value) :
  ((forall d, x <> PyDrink d) -> add_item x o = (Err TypeMismatch, o))
  /\ (forall d, x = PyDrink d -> add_item x o = (Ok tt, mkOrder (_items o ++ [d])))
  /\ add_item (PyStr "not a drink") o = (Err TypeMismatch, o).
Proof.
  unfold add_item. st_simpl. split; [|split].
  - intros Hx. destruct x as [d| | |]; [|done..]. exfalso. apply (Hx d). done.
  - intros d ->. done.
  - done.
Qed.

Lemma add_item_spec_witness :
  PyDrink mint_drink = PyDrink mint_drink
  /\ add_item (PyDrink mint_drink) sample_order
      = (Ok tt, mkOrder (_items sample_order ++ [mint_drink])).
Proof.
  split; [reflexivity|].
  exact (proj1 (proj2 (add_item_spec sample_order (PyDrink mint_drink))) mint_drink eq_refl).
Defined.

(** ** C5 and C10: get_receipt *)

Lemma py_join_nonempty (sep : string) (l : list string) :
  l <> [] -> (forall x, x ∈ l -> x <> "") -> py_join sep l <> "".
Proof.
  destruct l as [|x l]; [done|]. intros _ Hne.
  assert (Hx : x <> "") by (apply Hne; set_solver).
  destruct l as [|y l]; simpl; [done|].
  destruct x; [done|]. discriminate.
Qed.

Lemma receipt_lines_from_imap (k : nat) (items : list Drink) :
  receipt_lines_from k items = imap (fun i d => receipt_line (k + i) d) items.
Proof.
  revert k; induction items as [|d items IH]; intros k; [done|].
  simpl. rewrite IH, Nat.add_0_r. f_equal.
  apply imap_ext. intros i x _. simpl. f_equal. lia.
Qed.

Lemma receipt_line_spec (n : nat) (d : Drink) :
  drink_inv d -> receipt_line n d = spec_drink_line n d.
Proof.
  intros (_ & Hfl & _). unfold receipt_line, spec_drink_line.
  assert (Hbase : py_str_base (get_base d)
                  = match get_base d with Some b => b | None => "None" end)
    by (destruct (get_base d); done).
  rewrite Hbase. do 3 f_equal.
  unfold py_or. destruct (get_flavors d) as [|f fl] eqn:Ef; [done|].
  rewrite (proj2 (String.eqb_neq _ _)); [done|].
  apply py_join_nonempty; [done|].
  intros x Hx. apply elem_of_valid_flavors_nonempty, Hfl.
  apply elem_of_elements. unfold get_flavors in Ef. rewrite Ef. done.
Qed.

(** C5: with no items [get_receipt()] is the fixed text "Order is empty.
    Add some drinks!"; otherwise (for drinks satisfying the Drink invariant)
    it is the lines of [spec_receipt_lines] joined by newlines: a header,
    then for the drink at position [i] (from 0, in insertion order) the line
    "<i+1>. Base: <base or None>, Flavors: <flavors joined by ', ', or None
    if there are none>", then "Total Drinks: <count>" and
    "Total Cost: $<total>.00". *)
Theorem get_receipt_format (o : Order) :
  (_items o = [] -> get_receipt o = "Order is empty. Add some drinks!")
  /\ (_items o <> [] -> Forall drink_inv (_items o) ->
      get_receipt o = py_join newline (spec_receipt_lines o)).
Proof.
  unfold get_receipt. split.
  - intros ->. done.
  - intros Hne Hall.
    assert (Hlines : receipt_lines_from 1 (_items o)
                     = imap (fun i d => spec_drink_line (S i) d) (_items o)).
    { rewrite receipt_lines_from_imap. apply imap_ext.
      intros i d Hi. apply receipt_line_spec.
      rewrite Forall_lookup in Hall. apply (Hall i d Hi). }
    destruct (_items o) as [|d0 ds] eqn:Ei; [congruence|].
    unfold spec_receipt_lines, get_num_items, format_2f. rewrite !Ei, <- Hlines. done.
Qed.

Lemma get_receipt_format_witness :
  _items sample_order <> [] /\ Forall drink_inv (_items sample_order)
  /\ get_receipt sample_order = py_join newline (spec_receipt_lines sample_order).
Proof.
  assert (Hne : _items sample_order <> []) by discriminate.
  assert (Hall : Forall drink_inv (_items sample_order)) by by_eval.
  split; [exact Hne|]. split; [exact Hall|].
  exact (proj2 (get_receipt_format sample_order) Hne Hall).
Defined.

(** C10: in a non-empty order, the line of a drink whose base was never
    set reads "<n>. Base: None, Flavors: ...": the unset base is rendered
    as the text "None", the same text that stands for an empty flavor
    list, so a drink with neither reads "<n>. Base: None, Flavors: None". *)
Theorem receipt_unset_base (o : Order) (k : nat) (d : Drink) :
  _items o !! k = Some d -> _base d = None ->
  exists lines,
    get_receipt o = py_join newline lines
    /\ lines !! S k = Some (py_str_int (Z.of_nat (S k)) +:+ ". Base: " +:+ "None"
                            +:+ ", Flavors: " +:+ py_or (py_join ", " (get_flavors d)) "None")
    /\ (_flavors d = ∅ ->
        lines !! S k = Some (py_str_int (Z.of_nat (S k)) +:+ ". Base: None, Flavors: None")).
Proof.
  intros Hk Hb. unfold get_receipt.
  destruct (_items o) as [|d0 ds] eqn:Ei; [done|].
  eexists. split; [reflexivity|].
  assert (Hline : (["--- Order Receipt ---"] ++ receipt_lines_from 1 (d0 :: ds)
                   ++ ["Total Drinks: " +:+ py_str_int (Z.of_nat (get_num_items o));
                       "Total Cost: $" +:+ format_2f (get_total o)]) !! S k
                  = Some (receipt_line (S k) d)).
  { rewrite lookup_app_r by (simpl; lia). cbn [length].
    replace (S k - 1) with k by lia. rewrite lookup_app_l.
    - rewrite receipt_lines_from_imap, list_lookup_imap, Hk. done.
    - rewrite receipt_lines_from_imap, length_imap. apply lookup_lt_Some in Hk. done. }
  rewrite Hline. unfold receipt_line, get_base. rewrite Hb. split; [done|].
  intros He. unfold get_flavors. rewrite He, elements_empty. done.
Qed.

Lemma receipt_unset_base_witness :
  _items sample_order !! 1 = Some new_drink /\ _base new_drink = None
  /\ exists lines,
       get_receipt sample_order = py_join newline lines
       /\ lines !! 2 = Some (py_str_int (Z.of_nat 2) +:+ ". Base: " +:+ "None"
                             +:+ ", Flavors: " +:+ py_or (py_join ", " (get_flavors new_drink)) "None")
       /\ (_flavors new_drink = ∅ ->
           lines !! 2 = Some (py_str_int (Z.of_nat 2) +:+ ". Base: None, Flavors: None")).
Proof.
  assert (Hk : _items sample_order !! 1 = Some new_drink) by reflexivity.
  assert (Hb : _base new_drink = None) by reflexivity.
  split; [exact Hk|]. split; [exact Hb|].
  exact (receipt_unset_base sample_order 1 new_drink Hk Hb).
Defined.

(** * Further properties of the Drink and Order code *)

(** ** Drink *)

(** A drink satisfying the invariant never holds more than the six valid
    flavors: [get_num_flavors()] is at most 6. *)
Theorem num_flavors_at_most_six (d : Drink) :
  drink_inv d -> get_num_flavors d <= 6.
Proof.
  intros (_ & Hfl & _). unfold get_num_flavors.
  transitivity (size (list_to_set _valid_flavors : gset string)).
  - apply subseteq_size. intros f Hf. apply elem_of_list_to_set, Hfl, Hf.
  - rewrite size_list_to_set by by_eval. done.
Qed.

Lemma num_flavors_at_most_six_witness :
  drink_inv mint_drink /\ get_num_flavors mint_drink <= 6.
Proof.
  assert (Hi : drink_inv mint_drink) by by_eval.
  split; [exact Hi|]. exact (num_flavors_at_most_six mint_drink Hi).
Defined.

(** [set_flavors] clears the set first, so the previous flavors never
    influence it: on two drinks with the same base it raises or returns the
    same way and leaves the same drink. *)
Theorem set_flavors_forgets_flavors (fs : list string) (d1 d2 : Drink) :
  _base d1 = _base d2 -> set_flavors fs d1 = set_flavors fs d2.
Proof. intros Hb. rewrite !set_flavors_eq, Hb. done. Qed.

Lemma set_flavors_forgets_flavors_witness :
  _base mint_drink = _base (mkDrink (Some "water") ∅)
  /\ set_flavors ["lime"] mint_drink = set_flavors ["lime"] (mkDrink (Some "water") ∅).
Proof.
  assert (Hb : _base mint_drink = _base (mkDrink (Some "water") ∅)) by reflexivity.
  split; [exact Hb|]. exact (set_flavors_forgets_flavors ["lime"] _ _ Hb).
Defined.

(** After [set_flavors(fs)] returns normally on a list of distinct valid
    flavors, [get_flavors()] lists exactly the elements of [fs] (in some
    order) and [get_num_flavors()] is [len(fs)]. *)
Theorem get_flavors_after_set_flavors (fs : list string) (d : Drink) :
  NoDup fs -> Forall (fun f => f ∈ _valid_flavors) fs ->
  fst (set_flavors fs d) = Ok tt
  /\ get_flavors (snd (set_flavors fs d)) ≡ₚ fs
  /\ get_num_flavors (snd (set_flavors fs d)) = length fs.
Proof.
  intros Hnd Hval. rewrite set_flavors_eq, <- (app_nil_r fs).
  rewrite add_flavor_each_app by (done || set_solver).
  rewrite !app_nil_r. simpl. rewrite union_empty_r_L.
  split; [done|]. split.
  - apply elements_list_to_set, Hnd.
  - apply size_list_to_set, Hnd.
Qed.

Lemma get_flavors_after_set_flavors_witness :
  NoDup ["mint"; "lime"] /\ Forall (fun f => f ∈ _valid_flavors) ["mint"; "lime"]
  /\ get_flavors (snd (set_flavors ["mint"; "lime"] new_drink)) ≡ₚ ["mint"; "lime"].
Proof.
  assert (Hnd : NoDup ["mint"; "lime"]) by by_eval.
  assert (Hval : Forall (fun f => f ∈ _valid_flavors) ["mint"; "lime"])
    by (repeat (constructor; [by_eval|]); constructor).
  split; [exact Hnd|]. split; [exact Hval|].
  exact (proj1 (proj2 (get_flavors_after_set_flavors _ new_drink Hnd Hval))).
Defined.

(** Once a base is set it is never changed again: whatever sequence of
    [add_base], [add_flavor] and [set_flavors] calls follows, raising or
    not, the base stays the same. *)
Theorem base_set_once (cs : list drink_call) (d : Drink) :
  is_Some (_base d) -> _base (snd (run_calls cs d)) = _base d.
Proof.
  revert d; induction cs as [|c cs IH]; intros d Hs; [done|].
  simpl. pose proof (drink_method_base_set c d Hs) as Hb.
  destruct (drink_method c d) as [r d'] eqn:Ec. simpl in Hb.
  pose proof (IH d' ltac:(rewrite Hb; done)) as Hd''.
  destruct (run_calls cs d') as [rs d''] eqn:Er. simpl in *. congruence.
Qed.

Lemma base_set_once_witness :
  is_Some (_base mint_drink)
  /\ _base (snd (run_calls [CallAddBase "sbrite"; CallSetFlavors ["lemon"]] mint_drink))
     = _base mint_drink.
Proof.
  assert (Hs : is_Some (_base mint_drink)) by (eexists; reflexivity).
  split; [exact Hs|]. exact (base_set_once _ mint_drink Hs).
Defined.

(** ** Order *)

(** Appending a drink and then removing the last position gives back the
    order exactly as it was. *)
Theorem add_then_remove_last (o : Order) (d : Drink) :
  remove_item (Z.of_nat (get_num_items o)) (snd (add_item (PyDrink d) o)) = (Ok tt, o).
Proof.
  unfold add_item, get_num_items. st_simpl. rewrite remove_item_eq. simpl.
  rewrite length_app. simpl.
  rewrite (proj2 (Z.ltb_ge _ _)) by lia.
  replace (Z.of_nat (length (_items o)) >=? Z.of_nat (length (_items o) + 1))%Z with false
    by (symmetry; rewrite Z.geb_leb; apply Z.leb_gt; lia).
  rewrite Nat2Z.id, list_pop_take_drop, take_app_length, drop_app_ge by lia.
  replace (S (length (_items o)) - length (_items o)) with 1 by lia.
  destruct o as [l]. simpl. rewrite app_nil_r. done.
Qed.

Lemma list_pop_app_l {A} (i : nat) (l : list A) (x : A) :
  i < length l -> list_pop i (l ++ [x]) = list_pop i l ++ [x].
Proof.
  revert i; induction l as [|y l IH]; intros [|i] Hi; simpl in *; try lia; try done.
  rewrite IH by lia. done.
Qed.

(** Removing an existing position and appending a drink commute: both
    orders of the two calls return normally and give the same order. *)
Theorem remove_add_commute (o : Order) (d : Drink) (index : Z) :
  (0 <= index < Z.of_nat (get_num_items o))%Z ->
  fst (remove_item index o) = Ok tt
  /\ remove_item index (snd (add_item (PyDrink d) o))
     = (Ok tt, snd (add_item (PyDrink d) (snd (remove_item index o)))).
Proof.
  unfold get_num_items. intros Hi.
  rewrite !remove_item_eq. unfold add_item. st_simpl.
  rewrite (proj2 (Z.ltb_ge _ _)) by lia.
  replace (index >=? Z.of_nat (length (_items o)))%Z with false
    by (symmetry; rewrite Z.geb_leb; apply Z.leb_gt; lia).
  rewrite length_app. simpl.
  replace (index >=? Z.of_nat (length (_items o) + 1))%Z with false
    by (symmetry; rewrite Z.geb_leb; apply Z.leb_gt; lia).
  simpl. split; [done|]. rewrite list_pop_app_l by lia. done.
Qed.

Lemma remove_add_commute_witness :
  (0 <= 2 < Z.of_nat (get_num_items three_drink_order))%Z
  /\ fst (remove_item 2 three_drink_order) = Ok tt.
Proof.
  assert (Hi : (0 <= 2 < Z.of_nat (get_num_items three_drink_order))%Z) by by_eval.
  split; [exact Hi|]. exact (proj1 (remove_add_commute three_drink_order new_drink 2 Hi)).
Defined.
